(** * Reftab_Extract: the pager, the CSV writer and the entry point of
      [extact.py], embedded as executable Rocq definitions.

    The program talks to three things outside itself: the process
    environment, an HTTP server (through [requests]) and the file system.
    Each of them is an explicit argument of the embedded functions, and
    every effect the program has (requests issued, sleeps, lines printed,
    files written, exit status) is part of the value they return.

    Python values are modelled by the type [json]; numbers are the
    integers (a float never decides a branch of the program except for the
    sleep duration, which is a rational here).  A Python [str] is a
    [string] with one character per code point below 256. *)

From Stdlib Require Import List String Ascii ZArith QArith Bool Lia.
From Stdlib Require Import DecimalString OrderedTypeEx Sorted.
Import ListNotations.
Local Open Scope string_scope.
Local Open Scope Z_scope.
Local Set Warnings "-register-all".

(** ** Python values *)

Inductive json : Type :=
  | JNull
  | JBool (b : bool)
  | JNum (n : Z)
  | JStr (s : string)
  | JArr (items : list json)
  | JObj (fields : list (string * json)).

(** Insertion-ordered dictionaries, as association lists.  A field list
    that comes out of a JSON parser has no repeated key. *)
Section Dict.
Context {K V : Type} (eqb : K -> K -> bool).

Fixpoint dict_get (k : K) (d : list (K * V)) : option V :=
  match d with
  | [] => None
  | (k', v) :: d' => if eqb k k' then Some v else dict_get k d'
  end.

(** [d[k] = v]: an existing key keeps its position, a new one goes last. *)
Fixpoint dict_set (k : K) (v : V) (d : list (K * V)) : list (K * V) :=
  match d with
  | [] => [(k, v)]
  | (k', v') :: d' =>
      if eqb k k' then (k', v) :: d' else (k', v') :: dict_set k v d'
  end.

Definition dict_has (k : K) (d : list (K * V)) : bool :=
  match dict_get k d with Some _ => true | None => false end.
End Dict.

Definition dict : Type := list (string * json).
Definition sget (k : string) (d : dict) : option json := dict_get String.eqb k d.
Definition sset (k : string) (v : json) (d : dict) : dict := dict_set String.eqb k v d.
Definition shas (k : string) (d : dict) : bool := dict_has String.eqb k d.

(** [bool(v)] *)
Definition str_truthy (s : string) : bool :=
  match s with EmptyString => false | _ => true end.

Definition truthy (v : json) : bool :=
  match v with
  | JNull => false
  | JBool b => b
  | JNum n => negb (n =? 0)
  | JStr s => str_truthy s
  | JArr l => match l with [] => false | _ => true end
  | JObj d => match d with [] => false | _ => true end
  end.

(** [x or default] *)
Definition py_or (v default : json) : json := if truthy v then v else default.

Definition is_dict (v : json) : bool := match v with JObj _ => true | _ => false end.
Definition is_list (v : json) : bool := match v with JArr _ => true | _ => false end.

Definition type_name (v : json) : string :=
  match v with
  | JNull => "NoneType"
  | JBool _ => "bool"
  | JNum _ => "int"
  | JStr _ => "str"
  | JArr _ => "list"
  | JObj _ => "dict"
  end.

(** ** Text *)

Definition chr (n : nat) : ascii := ascii_of_nat n.
Definition str1 (c : ascii) : string := String c EmptyString.
Definition quote_char : ascii := chr 34.
Definition backslash : ascii := chr 92.
Definition slash : ascii := chr 47.
Definition CR : ascii := chr 13.
Definition LF : ascii := chr 10.

(** [str(n)] for an [int] *)
Definition str_of_Z (n : Z) : string := NilZero.string_of_int (Z.to_int n).

(** [s.lstrip("/")] and [s.rstrip("/")] *)
Fixpoint lstrip_slash (s : string) : string :=
  match s with
  | String c s' => if Ascii.eqb c slash then lstrip_slash s' else s
  | EmptyString => EmptyString
  end.

Fixpoint rstrip_slash (s : string) : string :=
  match s with
  | String c s' =>
      match rstrip_slash s' with
      | EmptyString => if Ascii.eqb c slash then EmptyString else str1 c
      | t => String c t
      end
  | EmptyString => EmptyString
  end.

Definition join_url (base path : string) : string :=
  rstrip_slash base ++ str1 slash ++ lstrip_slash path.

(** *** [json.dumps] with the default separators *)

Definition hex_digit (n : nat) : ascii :=
  if (n <? 10)%nat then chr (48 + n) else chr (87 + n).

(** The [\uXXXX] form of a code point below 256. *)
Definition u_escape (n : nat) : string :=
  String backslash ("u00" ++ String (hex_digit (n / 16)) (str1 (hex_digit (n mod 16)))).

Definition escape_char (ensure_ascii : bool) (c : ascii) : string :=
  let n := nat_of_ascii c in
  if (n =? 34)%nat then String backslash (str1 quote_char)
  else if (n =? 92)%nat then String backslash (str1 backslash)
  else if (n =? 10)%nat then String backslash "n"
  else if (n =? 13)%nat then String backslash "r"
  else if (n =? 9)%nat then String backslash "t"
  else if (n =? 8)%nat then String backslash "b"
  else if (n =? 12)%nat then String backslash "f"
  else if (n <? 32)%nat then u_escape n
  else if ensure_ascii && (126 <? n)%nat then u_escape n
  else str1 c.

Fixpoint escape_string (ensure_ascii : bool) (s : string) : string :=
  match s with
  | EmptyString => EmptyString
  | String c s' => escape_char ensure_ascii c ++ escape_string ensure_ascii s'
  end.

Definition dumps_str (ensure_ascii : bool) (s : string) : string :=
  String quote_char (escape_string ensure_ascii s ++ str1 quote_char).

Fixpoint json_dumps (ensure_ascii : bool) (v : json) : string :=
  match v with
  | JNull => "null"
  | JBool true => "true"
  | JBool false => "false"
  | JNum n => str_of_Z n
  | JStr s => dumps_str ensure_ascii s
  | JArr l =>
      "[" ++
      (fix items (l : list json) : string :=
         match l with
         | [] => EmptyString
         | [x] => json_dumps ensure_ascii x
         | x :: l' => json_dumps ensure_ascii x ++ ", " ++ items l'
         end) l ++ "]"
  | JObj d =>
      "{" ++
      (fix fields (d : list (string * json)) : string :=
         match d with
         | [] => EmptyString
         | [(k, x)] => dumps_str ensure_ascii k ++ ": " ++ json_dumps ensure_ascii x
         | (k, x) :: d' =>
             dumps_str ensure_ascii k ++ ": " ++ json_dumps ensure_ascii x ++ ", " ++ fields d'
         end) d ++ "}"
  end.

(** ** The HTTP layer

    What [requests] and the network do is not part of the program: a
    server is any function from the number of requests already made and the
    request to either an exception raised by [session.get] or a response. *)

(** Header names set through [dict.update] need not be strings. *)
Inductive pykey : Type :=
  | KStr (s : string)
  | KInt (n : Z)
  | KNone.

Definition pykey_eqb (a b : pykey) : bool :=
  match a, b with
  | KStr s, KStr t => String.eqb s t
  | KInt n, KInt m => n =? m
  | KNone, KNone => true
  | _, _ => false
  end.

Definition hdict : Type := list (pykey * json).
Definition hget (k : string) (d : hdict) : option json := dict_get pykey_eqb (KStr k) d.
Definition hset (k : pykey) (v : json) (d : hdict) : hdict := dict_set pykey_eqb k v d.

Record Session : Type := { session_headers : hdict }.

Record Request : Type := {
  req_session : Session;
  req_url : string;
  req_params : dict;
  req_headers : hdict;
  req_timeout : Z
}.

(** [resp_json] is the result of [resp.json()]: the decoded body, or the
    message of the decoding error. *)
Record Response : Type := {
  status_code : Z;
  resp_json : string + json
}.

Inductive exn : Type :=
  | HTTPError (response : option Response)
  | Error (kind : string) (msg : string).

Definition Server : Type := nat -> Request -> exn + Response.

Inductive event : Type :=
  | EGet (r : Request)
  | ESleep (seconds : Q).

Inductive outcome (A : Type) : Type :=
  | Returned (a : A)
  | Raised (e : exn)
  | Unfinished.
Arguments Returned {A} a.
Arguments Raised {A} e.
Arguments Unfinished {A}.

(** [Response.raise_for_status] *)
Definition raise_for_status (r : Response) : option exn :=
  if (400 <=? status_code r) && (status_code r <? 600)
  then Some (HTTPError (Some r)) else None.

(** [bool(response)] is [response.ok] *)
Definition resp_ok (r : Response) : bool :=
  match raise_for_status r with Some _ => false | None => true end.

(** [time.sleep] *)
Definition time_sleep (seconds : Q) : option exn :=
  if Qle_bool 0 seconds then None
  else Some (Error "ValueError" "sleep length must be non-negative").

(** Iterating a value, as [list.extend] does. *)
Fixpoint chars (s : string) : list json :=
  match s with
  | EmptyString => []
  | String c s' => JStr (str1 c) :: chars s'
  end.

Definition py_iter (v : json) : exn + list json :=
  match v with
  | JArr l => inr l
  | JStr s => inr (chars s)
  | JObj d => inr (map (fun kv => JStr (fst kv)) d)
  | _ => inl (Error "TypeError" ("'" ++ type_name v ++ "' object is not iterable"))
  end.

Definition py_len (v : json) : exn + Z :=
  match v with
  | JArr l => inr (Z.of_nat (List.length l))
  | JStr s => inr (Z.of_nat (String.length s))
  | JObj d => inr (Z.of_nat (List.length d))
  | _ => inl (Error "TypeError" ("object of type '" ++ type_name v ++ "' has no len()"))
  end.

Definition build_session : Session :=
  {| session_headers := hset (KStr "Accept") (JStr "application/json") [] |}.

(** ["results" in data] and [data.get("results")], for a dict [data] *)
Definition json_has (k : string) (data : json) : bool :=
  match data with JObj d => shas k d | _ => false end.

Definition json_get (k : string) (data : json) : json :=
  match data with
  | JObj d => match sget k d with Some v => v | None => JNull end
  | _ => JNull
  end.

(** Lines 43-47 of [get_paginated]: the batch carried by a decoded body. *)
Definition batch_of (body : json) : json :=
  let data := py_or body (JArr []) in
  if is_dict data && json_has "results" data
  then py_or (json_get "results" data) (JArr [])
  else if is_list data then data else JArr [].

Definition emit {A : Type} (es : list event) (r : list event * A) : list event * A :=
  ((es ++ fst r)%list, snd r).

Section Pager.
Variable server : Server.
Variables (session : Session) (base_url path : string) (params : dict)
          (headers : hdict) (limit : Z) (sleep_s : Q).

(** The request of one turn of the loop. *)
Definition page_request (offset : Z) : Request :=
  let qp := params in
  let qp := sset "limit" (JNum limit) qp in
  let qp := sset "offset" (JNum offset) qp in
  let url := join_url base_url path in
  {| req_session := session; req_url := url; req_params := qp;
     req_headers := headers; req_timeout := 60 |}.

(** The [while True] loop; [n] counts the requests made so far, [fuel]
    bounds the number of turns. *)
Fixpoint get_paginated_loop (fuel : nat) (n : nat) (offset : Z) (out : list json)
  : list event * outcome (list json) :=
  match fuel with
  | O => ([], Unfinished)
  | S fuel' =>
      let req := page_request offset in
      match server n req with
      | inl e => ([EGet req], Raised e)
      | inr resp =>
          if 500 <=? status_code resp then
            match time_sleep sleep_s with
            | Some e => ([EGet req], Raised e)
            | None =>
                emit [EGet req; ESleep sleep_s]
                     (get_paginated_loop fuel' (S n) offset out)
            end
          else
            match raise_for_status resp with
            | Some e => ([EGet req], Raised e)
            | None =>
                match resp_json resp with
                | inl msg => ([EGet req], Raised (Error "JSONDecodeError" msg))
                | inr body =>
                    let batch := batch_of body in
                    if negb (truthy batch) then ([EGet req], Returned out)
                    else
                      match py_iter batch with
                      | inl e => ([EGet req], Raised e)
                      | inr items =>
                          let out := (out ++ items)%list in
                          match py_len batch with
                          | inl e => ([EGet req], Raised e)
                          | inr len =>
                              if len <? limit then ([EGet req], Returned out)
                              else
                                let offset := offset + limit in
                                if negb (Qle_bool sleep_s 0) then
                                  emit [EGet req; ESleep sleep_s]
                                       (get_paginated_loop fuel' (S n) offset out)
                                else
                                  emit [EGet req]
                                       (get_paginated_loop fuel' (S n) offset out)
                          end
                      end
                end
            end
      end
  end.

Definition get_paginated (fuel : nat) : list event * outcome (list json) :=
  get_paginated_loop fuel 0%nat 0 [].
End Pager.

Definition fetch_assets (server : Server) (session : Session) (base_url : string)
    (headers : hdict) (limit : Z) (sleep_s : Q) (query : option string) (fuel : nat)
  : list event * outcome (list json) :=
  let params : dict := [] in
  let params :=
    match query with
    | Some q => if str_truthy q then sset "q" (JStr q) params else params
    | None => params
    end in
  get_paginated server session base_url "assets" params headers limit sleep_s fuel.

Definition fetch_locations (server : Server) (session : Session) (base_url : string)
    (headers : hdict) (limit : Z) (sleep_s : Q) (query : option string) (fuel : nat)
  : list event * outcome (list json) :=
  let params : dict := [] in
  let params :=
    match query with
    | Some q => if str_truthy q then sset "q" (JStr q) params else params
    | None => params
    end in
  get_paginated server session base_url "locations" params headers limit sleep_s fuel.

(** The requests of a trace, and the [offset] parameter of a request. *)
Fixpoint requests_of (es : list event) : list Request :=
  match es with
  | [] => []
  | EGet r :: es' => r :: requests_of es'
  | ESleep _ :: es' => requests_of es'
  end.


(** *** Servers to run the pager against *)

Definition ok_response (body : json) : Response :=
  {| status_code := 200; resp_json := inr body |}.

Definition status_response (code : Z) : Response :=
  {| status_code := code; resp_json := inl "Expecting value: line 1 column 1 (char 0)" |}.

(** A server that answers the n-th request with the n-th entry of a script. *)
Definition scripted (script : list (exn + Response)) : Server :=
  fun n _ => nth n script (inl (Error "ConnectionError" "connection refused")).

(** A server that holds [data] and serves the window the request asks for. *)
Definition window_server (data : list json) : Server :=
  fun _ req =>
    match sget "offset" (req_params req), sget "limit" (req_params req) with
    | Some (JNum o), Some (JNum l) =>
        inr (ok_response (JArr (firstn (Z.to_nat l) (skipn (Z.to_nat o) data))))
    | _, _ => inr (status_response 400)
    end.

(** ** The CSV writer *)

(** The file system: the files and their text, and what [open(path, "w")]
    raises for a path it cannot open. *)
Record FS : Type := {
  fs_files : list (string * string);
  fs_open_error : string -> option exn
}.

Definition fs_read (fs : FS) (path : string) : option string :=
  dict_get String.eqb path (fs_files fs).

(** [open(path, "w")]: the file exists and is empty afterwards. *)
Definition fs_open_w (fs : FS) (path : string) : exn + FS :=
  match fs_open_error fs path with
  | Some e => inl e
  | None =>
      inr {| fs_files := dict_set String.eqb path EmptyString (fs_files fs);
             fs_open_error := fs_open_error fs |}
  end.

(** [f.write(text)] on a file opened by [fs_open_w] *)
Definition fs_write (fs : FS) (path : string) (text : string) : FS :=
  let old := match fs_read fs path with Some t => t | None => EmptyString end in
  {| fs_files := dict_set String.eqb path (old ++ text) (fs_files fs);
     fs_open_error := fs_open_error fs |}.

(** [r.keys()], [r.items()]: only a dict has them. *)
Definition as_dict (attr : string) (r : json) : exn + dict :=
  match r with
  | JObj d => inr d
  | _ => inl (Error "AttributeError"
                ("'" ++ type_name r ++ "' object has no attribute '" ++ attr ++ "'"))
  end.

(** A set of strings, as a list without repetition. *)
Fixpoint set_add (k : string) (s : list string) : list string :=
  match s with
  | [] => [k]
  | k' :: s' => if String.eqb k k' then s else k' :: set_add k s'
  end.

(** The keys of one record added to a set. *)
Definition add_keys (acc : list string) (d : dict) : list string :=
  fold_left (fun s kv => set_add (fst kv) s) d acc.

(** [{k for r in rows for k in r.keys()}] *)
Fixpoint key_set (rows : list json) (acc : list string) : exn + list string :=
  match rows with
  | [] => inr acc
  | r :: rows' =>
      match as_dict "keys" r with
      | inl e => inl e
      | inr d => key_set rows' (add_keys acc d)
      end
  end.

(** [sorted] on strings *)
Fixpoint insert_sorted (k : string) (l : list string) : list string :=
  match l with
  | [] => [k]
  | k' :: l' => if String.leb k k' then k :: l else k' :: insert_sorted k l'
  end.

Definition py_sorted (l : list string) : list string :=
  fold_right insert_sorted [] l.

(** What a cell holds once nested values have been dumped. *)
Inductive scalar : Type :=
  | SNone
  | SBool (b : bool)
  | SInt (n : Z)
  | SStr (s : string).

(** [json.dumps(v) if isinstance(v, (dict, list)) else v] *)
Definition flatten_value (v : json) : scalar :=
  match v with
  | JArr _ | JObj _ => SStr (json_dumps true v)
  | JNull => SNone
  | JBool b => SBool b
  | JNum n => SInt n
  | JStr s => SStr s
  end.

(** [{k: ... for k, v in r.items()}] *)
Definition flatten_row (r : dict) : list (string * scalar) :=
  map (fun kv => (fst kv, flatten_value (snd kv))) r.

(** [DictWriter._dict_to_list]: [rowdict.get(key, "")] for each field name *)
Definition dict_to_list (fieldnames : list string) (rowdict : list (string * scalar))
  : list scalar :=
  map (fun key => match dict_get String.eqb key rowdict with
                  | Some v => v
                  | None => SStr EmptyString
                  end) fieldnames.

(** The text [csv.writer] gives a field: [None] is empty, a string is
    itself, anything else goes through [str]. *)
Definition field_text (v : scalar) : string :=
  match v with
  | SNone => EmptyString
  | SStr s => s
  | SInt n => str_of_Z n
  | SBool true => "True"
  | SBool false => "False"
  end.

(** Minimal quoting of the excel dialect. *)
Definition is_special (c : ascii) : bool :=
  Ascii.eqb c "," || Ascii.eqb c quote_char || Ascii.eqb c CR || Ascii.eqb c LF.

Fixpoint has_special (s : string) : bool :=
  match s with
  | EmptyString => false
  | String c s' => is_special c || has_special s'
  end.

Fixpoint double_quotes (s : string) : string :=
  match s with
  | EmptyString => EmptyString
  | String c s' =>
      if Ascii.eqb c quote_char then String c (String c (double_quotes s'))
      else String c (double_quotes s')
  end.

Definition quoted (s : string) : string :=
  String quote_char (double_quotes s ++ str1 quote_char).

Definition csv_field (s : string) : string :=
  if has_special s then quoted s else s.

Definition line_terminator : string := String CR (str1 LF).

(** [csv.writer.writerow]: a row whose only field is empty is written as a
    pair of quotes. *)
Definition csv_row (fields : list string) : string :=
  match fields with
  | [EmptyString] => quoted EmptyString ++ line_terminator
  | _ => String.concat "," (map csv_field fields) ++ line_terminator
  end.

Definition writeheader (fieldnames : list string) : string := csv_row fieldnames.

Definition writerow (fieldnames : list string) (rowdict : list (string * scalar)) : string :=
  csv_row (map field_text (dict_to_list fieldnames rowdict)).

(** The [for r in rows] loop of [write_csv] on the open file. *)
Fixpoint write_rows (keys : list string) (rows : list json) (path : string) (fs : FS)
  : FS * option exn :=
  match rows with
  | [] => (fs, None)
  | r :: rows' =>
      match as_dict "items" r with
      | inl e => (fs, Some e)
      | inr d => write_rows keys rows' path (fs_write fs path (writerow keys (flatten_row d)))
      end
  end.

Definition write_csv (rows : list json) (path : string) (fs : FS) : FS * option exn :=
  match rows with
  | [] =>
      match fs_open_w fs path with
      | inl e => (fs, Some e)
      | inr fs => (fs_write fs path EmptyString, None)
      end
  | _ =>
      match key_set rows [] with
      | inl e => (fs, Some e)
      | inr ks =>
          let keys := py_sorted ks in
          match fs_open_w fs path with
          | inl e => (fs, Some e)
          | inr fs => write_rows keys rows path (fs_write fs path (writeheader keys))
          end
      end
  end.

(** ** Configuration and the entry point *)

(** The process environment, and [os.getenv(name, default)]. *)
Definition Environ : Type := string -> option string.

Definition os_getenv (env : Environ) (name default : string) : string :=
  match env name with Some v => v | None => default end.

Definition env_of (vars : list (string * string)) : Environ :=
  fun name => dict_get String.eqb name vars.

(** [dict.update(other)], keeping what was stored before an item made it
    raise.  A dict is merged key by key; anything else is read as a sequence
    of two-element items. *)
Definition as_key (v : json) : option pykey :=
  match v with
  | JStr s => Some (KStr s)
  | JNum n => Some (KInt n)
  | JBool b => Some (KInt (if b then 1 else 0))
  | JNull => Some KNone
  | JArr _ | JObj _ => None
  end.

Definition pair_of (item : json) : option (pykey * json) :=
  match py_iter item with
  | inr [k; v] => match as_key k with Some k' => Some (k', v) | None => None end
  | _ => None
  end.

Fixpoint update_pairs (base : hdict) (items : list json) : hdict :=
  match items with
  | [] => base
  | item :: items' =>
      match pair_of item with
      | Some (k, v) => update_pairs (hset k v base) items'
      | None => base
      end
  end.

Definition update_fields (base : hdict) (d : dict) : hdict :=
  fold_left (fun b kv => hset (KStr (fst kv)) (snd kv) b) d base.

Definition dict_update (base : hdict) (other : json) : hdict :=
  match other with
  | JObj d => update_fields base d
  | _ => match py_iter other with
         | inr items => update_pairs base items
         | inl _ => base
         end
  end.

Record Namespace : Type := {
  resource : string;
  query : option string;
  limit : Z;
  sleep : Q;
  out : option string;
  stdout : bool
}.

(** How the process ends: its exit status, the lines it printed, the
    exception it died of (shown as a traceback), the requests and sleeps it
    made and the file system it leaves. *)
Record Process : Type := {
  exit_status : Z;
  printed : list string;
  uncaught : option exn;
  network : list event;
  disk : FS
}.

Definition opt_truthy (v : option json) : bool :=
  match v with Some v => truthy v | None => false end.

Definition error_payload (msg : string) : json :=
  JObj [("ok", JBool false); ("error", JStr msg)].

(** The two branches of the [try] block of [main]. *)
Definition fetch (s : Session) (base_url : string) (headers : hdict) (args : Namespace)
    (server : Server) (fuel : nat) : list event * outcome (list json) :=
  if String.eqb (resource args) "assets"
  then fetch_assets server s base_url headers (limit args) (sleep args) (query args) fuel
  else fetch_locations server s base_url headers (limit args) (sleep args) (query args) fuel.

Section Program.
(** [json.loads]: the decoded value, or nothing when it raises. *)
Variable json_loads : string -> option json.
Variable env : Environ.

Definition build_headers : hdict :=
  let public_key := os_getenv env "REFTAB_PUBLIC_KEY" EmptyString in
  let secret_key := os_getenv env "REFTAB_SECRET_KEY" EmptyString in
  let base := hset (KStr "X-Secret-Key") (JStr secret_key)
                (hset (KStr "X-Public-Key") (JStr public_key) []) in
  let extra := os_getenv env "REFTAB_HEADERS" EmptyString in
  if str_truthy extra then
    match json_loads extra with
    | Some v => dict_update base v
    | None => base
    end
  else base.

(** [main] from the [try] statement on: the configuration is valid and
    [args] is what [parse_args] returned (a command line that [argparse]
    rejects ends the process inside [argparse], before any request). *)
Definition run (base_url : string) (headers : hdict) (args : Namespace)
    (server : Server) (fs : FS) (fuel : nat) : option Process :=
  let s := build_session in
  match fetch s base_url headers args server fuel with
  | (_, Unfinished) => None
  | (net, Raised (HTTPError response)) =>
      let code :=
        match response with
        | Some r => if resp_ok r then str_of_Z (status_code r) else EmptyString
        | None => EmptyString
        end in
      Some {| exit_status := 2;
              printed := [json_dumps true (error_payload ("HTTP " ++ code))];
              uncaught := None; network := net; disk := fs |}
  | (net, Raised (Error _ msg)) =>
      Some {| exit_status := 2;
              printed := [json_dumps true (error_payload msg)];
              uncaught := None; network := net; disk := fs |}
  | (net, Returned rows) =>
      let out_path := match out args with Some p => p | None => EmptyString end in
      let written :=
        if str_truthy out_path then write_csv rows out_path fs else (fs, None) in
      match written with
      | (fs', Some e) =>
          Some {| exit_status := 1; printed := []; uncaught := Some e;
                  network := net; disk := fs' |}
      | (fs', None) =>
          let line :=
            if stdout args then json_dumps false (JArr rows)
            else json_dumps true
                   (JObj [("ok", JBool true); ("resource", JStr (resource args));
                          ("count", JNum (Z.of_nat (List.length rows)));
                          ("out", JStr out_path)]) in
          Some {| exit_status := 0; printed := [line]; uncaught := None;
                  network := net; disk := fs' |}
      end
  end.

Definition main (args : Namespace) (server : Server) (fs : FS) (fuel : nat)
  : option Process :=
  let base_url := os_getenv env "REFTAB_BASE_URL" EmptyString in
  if negb (str_truthy base_url) then
    Some {| exit_status := 1;
            printed := [json_dumps true (error_payload "Missing REFTAB_BASE_URL")];
            uncaught := None; network := []; disk := fs |}
  else
    let headers := build_headers in
    if negb (opt_truthy (hget "X-Public-Key" headers))
       || negb (opt_truthy (hget "X-Secret-Key" headers)) then
      Some {| exit_status := 1;
              printed := [json_dumps true
                            (error_payload "Missing REFTAB_PUBLIC_KEY or REFTAB_SECRET_KEY")];
              uncaught := None; network := []; disk := fs |}
    else run base_url headers args server fs fuel.
End Program.

(** *** Inputs to run the program on *)

Definition empty_fs : FS := {| fs_files := []; fs_open_error := fun _ => None |}.

(** A file system in which nothing can be opened for writing. *)
Definition readonly_fs : FS :=
  {| fs_files := [];
     fs_open_error := fun _ => Some (Error "OSError" "[Errno 30] Read-only file system") |}.

Definition nums (l : list Z) : list json := map JNum l.

Definition default_args : Namespace :=
  {| resource := "assets"; query := None; limit := 200; sleep := 1 # 5;
     out := None; stdout := false |}.

(** A decoder that knows one text. *)
Definition loads_only (text : string) (v : json) : string -> option json :=
  fun s => if String.eqb s text then Some v else None.

Definition no_json : string -> option json := fun _ => None.

Definition good_env : Environ :=
  env_of [("REFTAB_BASE_URL", "http://h/api"); ("REFTAB_PUBLIC_KEY", "pk");
          ("REFTAB_SECRET_KEY", "sk")].

(** ** The vocabulary of the specification *)




(** The sleep between two pages, and the trace of [m] retried requests. *)
Definition pause (sleep_s : Q) : list event :=
  if negb (Qle_bool sleep_s 0) then [ESleep sleep_s] else [].





Definition str_lt (a b : string) : Prop := String.ltb a b = true.


Fixpoint has_newline (s : string) : bool :=
  match s with
  | EmptyString => false
  | String c s' => Ascii.eqb c LF || has_newline s'
  end.

(** A process that stopped at the configuration check: status 1, one
    printed line holding an error payload, no traceback, no request. *)
Definition config_failure (p : Process) : Prop :=
  exit_status p = 1 /\ uncaught p = None /\ network p = []
  /\ exists msg, printed p = [json_dumps true (error_payload msg)].

Definition credentials_message : string :=
  "Missing REFTAB_PUBLIC_KEY or REFTAB_SECRET_KEY".

(** The message printed for an exception that left the [try] block. *)
Definition failure_message (e : exn) : string :=
  match e with
  | HTTPError (Some r) =>
      "HTTP " ++ (if resp_ok r then str_of_Z (status_code r) else EmptyString)
  | HTTPError None => "HTTP "
  | Error _ msg => msg
  end.

(** Extra headers that carry both keys, and extra headers that blank one. *)
Definition both_keys : dict :=
  [("X-Public-Key", JStr "pk2"); ("X-Secret-Key", JStr "sk2")].

Definition blank_secret : dict := [("X-Secret-Key", JStr EmptyString)].

Definition extra_env (d : dict) : Environ :=
  env_of [("REFTAB_BASE_URL", "http://h/api");
          ("REFTAB_HEADERS", json_dumps true (JObj d))].

Definition public_only_env : Environ :=
  env_of [("REFTAB_BASE_URL", "http://h/api"); ("REFTAB_PUBLIC_KEY", "pk")].


(** One full page, then a client error. *)
Definition failing_server : Server :=
  scripted [inr (ok_response (JArr (nums [1]))); inr (status_response 404)].

(** *** Words for the further properties *)

(** [n] slashes, and the ends of a text. *)
Fixpoint slashes (n : nat) : string :=
  match n with
  | O => EmptyString
  | S n' => String slash (slashes n')
  end.

Definition first_char (s : string) : option ascii :=
  match s with
  | String c _ => Some c
  | EmptyString => None
  end.

Fixpoint last_char (s : string) : option ascii :=
  match s with
  | EmptyString => None
  | String c EmptyString => Some c
  | String _ s' => last_char s'
  end.



(** What every request of a pagination has to look like: the caller's
    session, URL, headers and parameters, a timeout of 60 seconds, the
    page size and an offset that is a multiple of it. *)
Definition pager_request (session : Session) (base_url path : string) (params : dict)
    (headers : hdict) (limit : Z) (r : Request) : Prop :=
  req_session r = session
  /\ req_url r = join_url base_url path
  /\ req_headers r = headers
  /\ req_timeout r = 60
  /\ sget "limit" (req_params r) = Some (JNum limit)
  /\ (exists k : nat, sget "offset" (req_params r) = Some (JNum (Z.of_nat k * limit)))
  /\ forall key, key <> "limit" -> key <> "offset" ->
       sget key (req_params r) = sget key params.

(** The [q] parameter the fetchers send for a query. *)
Definition query_param (query : option string) : option json :=
  match query with
  | Some q => if str_truthy q then Some (JStr q) else None
  | None => None
  end.

(** The path the entry point asks for. *)
Definition resource_path (args : Namespace) : string :=
  if String.eqb (resource args) "assets" then "assets" else "locations".

(** Induction on values that reaches the items of arrays and the fields of
    objects. *)
Section JsonInduction.
Variable P : json -> Prop.
Hypothesis HNull : P JNull.
Hypothesis HBool : forall b, P (JBool b).
Hypothesis HNum : forall n, P (JNum n).
Hypothesis HStr : forall s, P (JStr s).
Hypothesis HArr : forall l, Forall P l -> P (JArr l).
Hypothesis HObj : forall d, Forall (fun kv => P (snd kv)) d -> P (JObj d).

End JsonInduction.



(** The two key headers as the environment alone gives them. *)
Definition key_headers (env : Environ) : hdict :=
  [(KStr "X-Public-Key", JStr (os_getenv env "REFTAB_PUBLIC_KEY" EmptyString));
   (KStr "X-Secret-Key", JStr (os_getenv env "REFTAB_SECRET_KEY" EmptyString))].

(** The message of the [AttributeError] raised on [r.keys()]. *)
Definition no_keys_error (r : json) : exn :=
  Error "AttributeError" ("'" ++ type_name r ++ "' object has no attribute 'keys'").




Definition csv_args : Namespace :=
  {| resource := "locations"; query := Some "x"; limit := 1; sleep := 0;
     out := Some "out.csv"; stdout := true |}.

(** A file system that already holds a file. *)
Definition used_fs : FS :=
  {| fs_files := [("notes.txt", "keep")]; fs_open_error := fun _ => None |}.

(** * Properties *)

(** ** Dictionaries *)

Section DictFacts.
Context {K V : Type} (eqb : K -> K -> bool).
Hypothesis eqb_spec : forall a b, reflect (a = b) (eqb a b).

Lemma dict_get_set_same (k : K) (v : V) (d : list (K * V)) :
  dict_get eqb k (dict_set eqb k v d) = Some v.
Proof.
  induction d as [|[k' v'] d IH]; simpl.
  - destruct (eqb_spec k k); congruence.
  - destruct (eqb_spec k k') as [E|N]; simpl.
    + destruct (eqb_spec k k'); congruence.
    + destruct (eqb_spec k k'); [congruence | exact IH].
Qed.

Lemma dict_get_set_other (k k0 : K) (v : V) (d : list (K * V)) :
  k <> k0 -> dict_get eqb k (dict_set eqb k0 v d) = dict_get eqb k d.
Proof.
  intros N. induction d as [|[k' v'] d IH]; simpl.
  - destruct (eqb_spec k k0); congruence.
  - destruct (eqb_spec k0 k') as [E|N']; simpl.
    + subst k'. destruct (eqb_spec k k0); congruence.
    + destruct (eqb_spec k k'); [reflexivity | exact IH].
Qed.

Lemma dict_get_not_in (k : K) (d : list (K * V)) :
  ~ In k (map fst d) -> dict_get eqb k d = None.
Proof.
  induction d as [|[k' v'] d IH]; simpl; intros H; [reflexivity|].
  destruct (eqb_spec k k'); [exfalso; auto | apply IH; tauto].
Qed.
End DictFacts.

Lemma pykey_eqb_spec (a b : pykey) : reflect (a = b) (pykey_eqb a b).
Proof.
  destruct a as [s| n|], b as [t|m|]; simpl; try (constructor; congruence).
  - destruct (String.eqb_spec s t); constructor; congruence.
  - destruct (Z.eqb_spec n m); constructor; congruence.
Qed.

Lemma sget_sset_same (k : string) (v : json) (d : dict) :
  sget k (sset k v d) = Some v.
Proof. apply dict_get_set_same, String.eqb_spec. Qed.

(** ** The pager *)




Lemma requests_of_app (a b : list event) :
  requests_of (a ++ b)%list = (requests_of a ++ requests_of b)%list.
Proof.
  induction a as [|[r|q] a IH]; simpl; [reflexivity| |exact IH].
  now rewrite IH.
Qed.

Lemma requests_of_pause (sleep_s : Q) : requests_of (pause sleep_s) = [].
Proof. unfold pause. destruct (negb _); reflexivity. Qed.

Section PagerFacts.
Variable server : Server.
Variables (session : Session) (base_url path : string) (params : dict)
          (headers : hdict) (limit : Z) (sleep_s : Q).

Local Abbreviation req := (page_request session base_url path params headers limit).
Local Abbreviation loop :=
  (get_paginated_loop server session base_url path params headers limit sleep_s).










End PagerFacts.

(** ** The CSV writer *)



Lemma str_leb_lt (a b : string) : String.leb a b = true -> a <> b -> str_lt a b.
Proof.
  unfold str_lt, String.leb, String.ltb. intros H N.
  destruct (String.compare a b) eqn:E; try reflexivity; try discriminate.
  apply String.compare_eq_iff in E. contradiction.
Qed.

Lemma str_leb_false (a b : string) : String.leb a b = false -> str_lt b a.
Proof.
  unfold str_lt, String.leb, String.ltb. intros H.
  rewrite String.compare_antisym.
  destruct (String.compare a b); try discriminate. reflexivity.
Qed.

Lemma str_lt_trans (a b c : string) : str_lt a b -> str_lt b c -> str_lt a c.
Proof.
  unfold str_lt, String.ltb. intros H1 H2.
  destruct (String.compare a b) eqn:E1; try discriminate.
  destruct (String.compare b c) eqn:E2; try discriminate.
  apply String_as_OT.cmp_lt in E1, E2.
  pose proof (String_as_OT.lt_trans _ _ _ E1 E2) as L.
  apply String_as_OT.cmp_lt in L. unfold String_as_OT.cmp in L. now rewrite L.
Qed.

Lemma set_add_in (k x : string) (s : list string) :
  In x (set_add k s) <-> x = k \/ In x s.
Proof.
  induction s as [|k' s IH]; simpl.
  - intuition.
  - destruct (String.eqb_spec k k') as [->|N]; simpl; [intuition|].
    rewrite IH. intuition.
Qed.

Lemma set_add_nodup (k : string) (s : list string) : NoDup s -> NoDup (set_add k s).
Proof.
  induction 1 as [|k' s Hn Hs IH]; simpl.
  - constructor; [intros [] | constructor].
  - destruct (String.eqb_spec k k') as [->|N]; [now constructor|].
    constructor; [|exact IH].
    rewrite set_add_in. intros [E|I]; [congruence | contradiction].
Qed.

Lemma add_keys_in (d : dict) (acc : list string) (x : string) :
  In x (add_keys acc d) <-> In x acc \/ In x (map fst d).
Proof.
  unfold add_keys. revert acc. induction d as [|[k v] d IH]; intros acc; simpl.
  - intuition.
  - rewrite IH, set_add_in. intuition.
Qed.

Lemma add_keys_nodup (d : dict) (acc : list string) : NoDup acc -> NoDup (add_keys acc d).
Proof.
  unfold add_keys. revert acc. induction d as [|[k v] d IH]; intros acc H; simpl.
  - exact H.
  - apply IH, set_add_nodup, H.
Qed.

Lemma key_set_records (recs : list dict) (acc : list string) :
  key_set (map JObj recs) acc = inr (fold_left add_keys recs acc).
Proof.
  revert acc. induction recs as [|r recs IH]; intros acc; simpl; [reflexivity|].
  apply IH.
Qed.

Lemma shas_in (k : string) (d : dict) : shas k d = true <-> In k (map fst d).
Proof.
  unfold shas, dict_has. induction d as [|[k' v] d IH]; simpl.
  - split; [discriminate | intros []].
  - destruct (String.eqb_spec k k') as [->|N]; [intuition|].
    rewrite IH. intuition congruence.
Qed.

Lemma all_keys_in (recs : list dict) (acc : list string) (x : string) :
  In x (fold_left add_keys recs acc)
  <-> In x acc \/ exists r, In r recs /\ shas x r = true.
Proof.
  revert acc. induction recs as [|r recs IH]; intros acc; simpl.
  - split; [auto | intros [H|(r & [] & _)]; exact H].
  - rewrite IH, add_keys_in. split.
    + intros [[H|H]|(r' & H & Hk)]; [auto| |].
      * right. exists r. split; [auto | now apply shas_in].
      * right. exists r'. auto.
    + intros [H|(r' & [<-|H] & Hk)]; [auto| |].
      * left. right. now apply shas_in.
      * right. exists r'. auto.
Qed.

Lemma all_keys_nodup (recs : list dict) (acc : list string) :
  NoDup acc -> NoDup (fold_left add_keys recs acc).
Proof.
  revert acc. induction recs as [|r recs IH]; intros acc H; simpl; [exact H|].
  apply IH, add_keys_nodup, H.
Qed.

Lemma insert_sorted_in (k x : string) (l : list string) :
  In x (insert_sorted k l) <-> x = k \/ In x l.
Proof.
  induction l as [|k' l IH]; simpl.
  - intuition.
  - destruct (String.leb k k'); simpl; [intuition|].
    rewrite IH. intuition.
Qed.

Lemma insert_sorted_strict (k : string) (l : list string) :
  StronglySorted str_lt l -> ~ In k l -> StronglySorted str_lt (insert_sorted k l).
Proof.
  induction 1 as [|k' l Hs IH Hall]; intros Hn; simpl.
  - constructor; constructor.
  - destruct (String.leb k k') eqn:E.
    + assert (L : str_lt k k') by (apply str_leb_lt; [exact E | intros ->; apply Hn; now left]).
      constructor; [now constructor|].
      constructor; [exact L|].
      eapply Forall_impl; [|exact Hall]. intros b Hb. eapply str_lt_trans; eauto.
    + constructor.
      * apply IH. intros I. apply Hn. now right.
      * apply Forall_forall. intros x Hx. apply insert_sorted_in in Hx.
        destruct Hx as [->|Hx]; [now apply str_leb_false|].
        rewrite Forall_forall in Hall. now apply Hall.
Qed.

Lemma py_sorted_in (l : list string) (x : string) : In x (py_sorted l) <-> In x l.
Proof.
  induction l as [|k l IH]; simpl; [tauto|].
  rewrite insert_sorted_in, IH. intuition.
Qed.

Lemma py_sorted_strict (l : list string) : NoDup l -> StronglySorted str_lt (py_sorted l).
Proof.
  induction 1 as [|k l Hn Hd IH]; simpl; [constructor|].
  apply insert_sorted_strict; [exact IH|].
  now rewrite py_sorted_in.
Qed.

Lemma fs_read_write (fs : FS) (path text old : string) :
  fs_read fs path = Some old ->
  fs_read (fs_write fs path text) path = Some (old ++ text).
Proof.
  intros H. unfold fs_write. rewrite H. unfold fs_read. simpl.
  apply dict_get_set_same, String.eqb_spec.
Qed.

Lemma fs_read_open (fs fs' : FS) (path : string) :
  fs_open_w fs path = inr fs' -> fs_read fs' path = Some EmptyString.
Proof.
  unfold fs_open_w. destruct (fs_open_error fs path); [discriminate|].
  intros [= <-]. unfold fs_read. simpl.
  apply dict_get_set_same, String.eqb_spec.
Qed.





(** C8. On an empty list of records the writer leaves an empty file: no
    header line and no rows. *)
Theorem write_csv_empty (path : string) (fs : FS) :
  fs_open_error fs path = None ->
  exists fs',
    write_csv [] path fs = (fs', None)
    /\ fs_read fs' path = Some EmptyString
    /\ forall text, fs_read fs' path = Some text -> String.length text = 0%nat.
Proof.
  intros Hopen. unfold write_csv.
  destruct (fs_open_w fs path) as [e|fs1] eqn:Ho.
  { unfold fs_open_w in Ho. rewrite Hopen in Ho. discriminate. }
  pose proof (fs_read_write fs1 path EmptyString _ (fs_read_open _ _ _ Ho)) as Hr.
  exists (fs_write fs1 path EmptyString). split; [reflexivity|]. split; [exact Hr|].
  intros text Ht. rewrite Hr in Ht. injection Ht as <-. reflexivity.
Qed.

(** ** Configuration and the entry point *)

Lemma hget_hset_same (k : string) (v : json) (h : hdict) :
  hget k (hset (KStr k) v h) = Some v.
Proof. apply dict_get_set_same, pykey_eqb_spec. Qed.

Lemma hget_hset_other (k k' : string) (v : json) (h : hdict) :
  k <> k' -> hget k (hset (KStr k') v h) = hget k h.
Proof. intros N. apply dict_get_set_other; [apply pykey_eqb_spec | congruence]. Qed.

Lemma update_fields_other (k : string) (d : dict) (base : hdict) :
  ~ In k (map fst d) -> hget k (update_fields base d) = hget k base.
Proof.
  unfold update_fields. revert base.
  induction d as [|[k' v'] d IH]; intros base H; simpl; [reflexivity|].
  simpl in H. rewrite IH by tauto. apply hget_hset_other. intros ->. tauto.
Qed.

Lemma update_fields_get (k : string) (v : json) (d : dict) (base : hdict) :
  NoDup (map fst d) -> sget k d = Some v -> hget k (update_fields base d) = Some v.
Proof.
  unfold sget. revert base.
  induction d as [|[k' v'] d IH]; intros base Hn Hg; simpl in *; [discriminate|].
  inversion Hn as [|? ? Hk Hd]; subst.
  destruct (String.eqb_spec k k') as [->|N].
  - injection Hg as ->.
    change (hget k' (update_fields (hset (KStr k') v base) d) = Some v).
    rewrite update_fields_other by exact Hk. apply hget_hset_same.
  - now apply IH.
Qed.

Lemma str_truthy_false (s : string) : str_truthy s = false <-> s = EmptyString.
Proof. destruct s; simpl; split; congruence. Qed.

Lemma str_truthy_true (s : string) : str_truthy s = true <-> s <> EmptyString.
Proof. destruct s; simpl; split; congruence. Qed.

(** Without usable extra headers the merged headers are the two keys. *)
Lemma build_headers_plain (json_loads : string -> option json) (env : Environ) :
  os_getenv env "REFTAB_HEADERS" EmptyString = EmptyString
  \/ json_loads (os_getenv env "REFTAB_HEADERS" EmptyString) = None ->
  build_headers json_loads env
  = [(KStr "X-Public-Key", JStr (os_getenv env "REFTAB_PUBLIC_KEY" EmptyString));
     (KStr "X-Secret-Key", JStr (os_getenv env "REFTAB_SECRET_KEY" EmptyString))].
Proof.
  unfold build_headers. intros [-> | ->]; [reflexivity|].
  now destruct (str_truthy _).
Qed.

(** With an object as extra headers the merged headers are the two keys
    updated with its fields. *)
Lemma build_headers_object (json_loads : string -> option json) (env : Environ) (d : dict) :
  os_getenv env "REFTAB_HEADERS" EmptyString <> EmptyString ->
  json_loads (os_getenv env "REFTAB_HEADERS" EmptyString) = Some (JObj d) ->
  build_headers json_loads env
  = update_fields
      [(KStr "X-Public-Key", JStr (os_getenv env "REFTAB_PUBLIC_KEY" EmptyString));
       (KStr "X-Secret-Key", JStr (os_getenv env "REFTAB_SECRET_KEY" EmptyString))] d.
Proof.
  unfold build_headers. intros Hne ->.
  apply str_truthy_true in Hne. now rewrite Hne.
Qed.

(** Once past the configuration check, no way out of [main] looks like a
    configuration failure. *)
Lemma run_not_config_failure base_url headers args server fs fuel p :
  run base_url headers args server fs fuel = Some p -> ~ config_failure p.
Proof.
  unfold run, config_failure.
  destruct (fetch _ _ _ _ _ _) as [net [rows|[resp|kind msg]|]]; try discriminate.
  - destruct (if str_truthy _ then _ else _) as [fs' [e|]];
      intros [= <-]; simpl; intros (H1 & H2 & _); [discriminate H2 | discriminate H1].
  - intros [= <-]; simpl; intros (H1 & _); discriminate H1.
  - intros [= <-]; simpl; intros (H1 & _); discriminate H1.
Qed.

Lemma main_cases (json_loads : string -> option json) (env : Environ)
    (args : Namespace) (server : Server) (fs : FS) (fuel : nat) :
  let base_url := os_getenv env "REFTAB_BASE_URL" EmptyString in
  let headers := build_headers json_loads env in
  (base_url = EmptyString
   /\ main json_loads env args server fs fuel
      = Some {| exit_status := 1;
                printed := [json_dumps true (error_payload "Missing REFTAB_BASE_URL")];
                uncaught := None; network := []; disk := fs |})
  \/ (base_url <> EmptyString
      /\ (opt_truthy (hget "X-Public-Key" headers) = false
          \/ opt_truthy (hget "X-Secret-Key" headers) = false)
      /\ main json_loads env args server fs fuel
         = Some {| exit_status := 1;
                   printed := [json_dumps true (error_payload credentials_message)];
                   uncaught := None; network := []; disk := fs |})
  \/ (base_url <> EmptyString
      /\ opt_truthy (hget "X-Public-Key" headers) = true
      /\ opt_truthy (hget "X-Secret-Key" headers) = true
      /\ main json_loads env args server fs fuel
         = run base_url headers args server fs fuel).
Proof.
  intros base_url headers. unfold main. fold base_url. fold headers.
  destruct (str_truthy base_url) eqn:Hb; cbn [negb].
  - apply str_truthy_true in Hb.
    destruct (opt_truthy (hget "X-Public-Key" headers)) eqn:Hp; cbn [negb orb].
    + destruct (opt_truthy (hget "X-Secret-Key" headers)) eqn:Hs; cbn [negb].
      * right. right. auto.
      * right. left. auto.
    + right. left. auto.
  - apply str_truthy_false in Hb. left. auto.
Qed.

Lemma main_config_failure_iff (json_loads : string -> option json) (env : Environ)
    (args : Namespace) (server : Server) (fs : FS) (fuel : nat) :
  (exists p, main json_loads env args server fs fuel = Some p /\ config_failure p)
  <-> (os_getenv env "REFTAB_BASE_URL" EmptyString = EmptyString
       \/ opt_truthy (hget "X-Public-Key" (build_headers json_loads env)) = false
       \/ opt_truthy (hget "X-Secret-Key" (build_headers json_loads env)) = false).
Proof.
  destruct (main_cases json_loads env args server fs fuel)
    as [(Hb & Hm)|[(Hb & Hk & Hm)|(Hb & Hp & Hs & Hm)]]; rewrite Hm.
  - split; [auto|]. intros _. eexists. split; [reflexivity|].
    repeat split. now exists "Missing REFTAB_BASE_URL".
  - split; [auto|]. intros _. eexists. split; [reflexivity|].
    repeat split. now exists credentials_message.
  - split.
    + intros (p & Hr & Hc). exfalso. exact (run_not_config_failure _ _ _ _ _ _ _ Hr Hc).
    + intros [H|[H|H]]; [contradiction | congruence | congruence].
Qed.

(** C3, as the code has it. The program stops at the configuration check,
    with status 1 and an error payload, exactly when the base URL is absent
    or empty or at least one of the two merged key headers is absent or
    empty; without usable extra headers, exactly when the base URL, the
    public key or the secret key is absent or empty.  One key is not
    enough. *)
Theorem config_check_needs_both_keys (json_loads : string -> option json) (env : Environ)
    (args : Namespace) (server : Server) (fs : FS) (fuel : nat) :
  ((exists p, main json_loads env args server fs fuel = Some p /\ config_failure p)
   <-> (os_getenv env "REFTAB_BASE_URL" EmptyString = EmptyString
        \/ opt_truthy (hget "X-Public-Key" (build_headers json_loads env)) = false
        \/ opt_truthy (hget "X-Secret-Key" (build_headers json_loads env)) = false))
  /\ (os_getenv env "REFTAB_HEADERS" EmptyString = EmptyString
      \/ json_loads (os_getenv env "REFTAB_HEADERS" EmptyString) = None ->
      ((exists p, main json_loads env args server fs fuel = Some p /\ config_failure p)
       <-> (os_getenv env "REFTAB_BASE_URL" EmptyString = EmptyString
            \/ os_getenv env "REFTAB_PUBLIC_KEY" EmptyString = EmptyString
            \/ os_getenv env "REFTAB_SECRET_KEY" EmptyString = EmptyString))).
Proof.
  split; [apply main_config_failure_iff|].
  intros Hx. rewrite main_config_failure_iff, (build_headers_plain _ _ Hx).
  cbn. rewrite !str_truthy_false. reflexivity.
Qed.

(** C10. The credential check reads the merged headers.  When the extra
    headers decode to an object that gives both key headers a non-empty
    value, the program goes past the check whatever the two key variables
    hold (the base URL being set); when the object gives one of the key
    headers an empty value, the program stops with status 1. *)
Theorem merged_headers_decide_credentials (json_loads : string -> option json)
    (env : Environ) (args : Namespace) (server : Server) (fs : FS) (fuel : nat)
    (d : dict) :
  os_getenv env "REFTAB_HEADERS" EmptyString <> EmptyString ->
  json_loads (os_getenv env "REFTAB_HEADERS" EmptyString) = Some (JObj d) ->
  NoDup (map fst d) ->
  (forall vp vs,
     os_getenv env "REFTAB_BASE_URL" EmptyString <> EmptyString ->
     sget "X-Public-Key" d = Some vp -> truthy vp = true ->
     sget "X-Secret-Key" d = Some vs -> truthy vs = true ->
     main json_loads env args server fs fuel
     = run (os_getenv env "REFTAB_BASE_URL" EmptyString) (build_headers json_loads env)
           args server fs fuel)
  /\ (forall v,
        sget "X-Public-Key" d = Some v \/ sget "X-Secret-Key" d = Some v ->
        truthy v = false ->
        exists p, main json_loads env args server fs fuel = Some p
                  /\ exit_status p = 1 /\ config_failure p).
Proof.
  intros Hne Hj Hd. split.
  - intros vp vs Hb Hp Tp Hs Ts.
    destruct (main_cases json_loads env args server fs fuel)
      as [(Hb' & _)|[(_ & Hk & _)|(_ & _ & _ & Hm)]]; [contradiction| |exact Hm].
    rewrite (build_headers_object _ _ _ Hne Hj) in Hk.
    rewrite (update_fields_get _ _ _ _ Hd Hp), (update_fields_get _ _ _ _ Hd Hs) in Hk.
    simpl in Hk. rewrite Tp, Ts in Hk. destruct Hk; discriminate.
  - intros v Hv Fv.
    assert (Hc : exists p, main json_loads env args server fs fuel = Some p
                           /\ config_failure p).
    { apply main_config_failure_iff. right.
      rewrite (build_headers_object _ _ _ Hne Hj).
      destruct Hv as [Hv|Hv]; [left|right];
        rewrite (update_fields_get _ _ _ _ Hd Hv); exact Fv. }
    destruct Hc as (p & Hm & Hc). exists p. split; [exact Hm|].
    split; [apply Hc | exact Hc].
Qed.

Lemma has_newline_app (a b : string) :
  has_newline (a ++ b) = has_newline a || has_newline b.
Proof.
  induction a as [|c a IH]; simpl; [reflexivity|].
  now rewrite IH, orb_assoc.
Qed.

Lemma escape_char_one_line (ensure_ascii : bool) (c : ascii) :
  has_newline (escape_char ensure_ascii c) = false.
Proof.
  destruct ensure_ascii;
    destruct c as [[] [] [] [] [] [] [] []]; vm_compute; reflexivity.
Qed.

Lemma dumps_str_one_line (ensure_ascii : bool) (s : string) :
  has_newline (dumps_str ensure_ascii s) = false.
Proof.
  unfold dumps_str. cbn [has_newline]. rewrite has_newline_app.
  replace (has_newline (escape_string ensure_ascii s)) with false.
  - reflexivity.
  - induction s as [|c s IH]; simpl; [reflexivity|].
    now rewrite has_newline_app, escape_char_one_line.
Qed.

Lemma error_payload_one_line (msg : string) :
  has_newline (json_dumps true (error_payload msg)) = false.
Proof.
  unfold error_payload. cbn [json_dumps].
  repeat (rewrite has_newline_app; cbn [orb]).
  rewrite !dumps_str_one_line. reflexivity.
Qed.

(** C9. When the fetch raises, at any point of the pagination, the program
    prints one line, the error payload, and exits with status 2: the file
    system is left as it was and no record is printed. *)
Theorem fetch_failure_discards_everything (json_loads : string -> option json)
    (env : Environ) (args : Namespace) (server : Server) (fs : FS) (fuel : nat)
    (net : list event) (e : exn) :
  os_getenv env "REFTAB_BASE_URL" EmptyString <> EmptyString ->
  opt_truthy (hget "X-Public-Key" (build_headers json_loads env)) = true ->
  opt_truthy (hget "X-Secret-Key" (build_headers json_loads env)) = true ->
  fetch build_session (os_getenv env "REFTAB_BASE_URL" EmptyString)
        (build_headers json_loads env) args server fuel = (net, Raised e) ->
  main json_loads env args server fs fuel
  = Some {| exit_status := 2;
            printed := [json_dumps true (error_payload (failure_message e))];
            uncaught := None; network := net; disk := fs |}
  /\ has_newline (json_dumps true (error_payload (failure_message e))) = false.
Proof.
  intros Hb Hp Hs Hf. split; [|apply error_payload_one_line].
  destruct (main_cases json_loads env args server fs fuel)
    as [(Hb' & _)|[(_ & Hk & _)|(_ & _ & _ & Hm)]];
    [contradiction | destruct Hk; congruence |].
  rewrite Hm. unfold run. rewrite Hf.
  destruct e as [[r|]|kind msg]; reflexivity.
Qed.

(** C2, where the code leaves it. The records were fetched and the CSV file
    cannot be opened: the exception of [open] is not caught, so the program
    prints nothing and ends with a traceback and status 1. *)
Theorem csv_write_failure_is_uncaught :
  exists p,
    main no_json good_env
         {| resource := "assets"; query := None; limit := 200; sleep := 0;
            out := Some "out.csv"; stdout := false |}
         (window_server [JObj [("a", JNum 1)]]) readonly_fs 2
    = Some p
    /\ exit_status p = 1
    /\ printed p = []
    /\ uncaught p = Some (Error "OSError" "[Errno 30] Read-only file system")
    /\ fs_files (disk p) = [].
Proof. eexists. split; [vm_compute; reflexivity|]. repeat split. Qed.

(** ** The theorems at concrete inputs *)







Lemma write_csv_empty_witness :
  exists fs',
    write_csv [] "out.csv" empty_fs = (fs', None)
    /\ fs_read fs' "out.csv" = Some EmptyString
    /\ forall text, fs_read fs' "out.csv" = Some text -> String.length text = 0%nat.
Proof. apply (write_csv_empty "out.csv" empty_fs). reflexivity. Defined.

(** C3, as the specification has it, fails: the base URL and the public key
    are set, and the program still stops at the configuration check. *)
Lemma one_key_is_rejected :
  (exists p,
     main no_json public_only_env default_args (scripted []) empty_fs 1 = Some p
     /\ config_failure p
     /\ printed p = [json_dumps true (error_payload credentials_message)])
  /\ ~ (os_getenv public_only_env "REFTAB_BASE_URL" EmptyString = EmptyString
        \/ (os_getenv public_only_env "REFTAB_PUBLIC_KEY" EmptyString = EmptyString
            /\ os_getenv public_only_env "REFTAB_SECRET_KEY" EmptyString = EmptyString)).
Proof.
  split.
  - eexists. split; [reflexivity|]. split; [|reflexivity].
    repeat split. now exists credentials_message.
  - intros [H|[H _]]; discriminate H.
Qed.

Lemma config_check_needs_both_keys_witness :
  (exists p,
     main no_json public_only_env default_args (scripted []) empty_fs 1 = Some p
     /\ config_failure p)
  <-> (os_getenv public_only_env "REFTAB_BASE_URL" EmptyString = EmptyString
       \/ os_getenv public_only_env "REFTAB_PUBLIC_KEY" EmptyString = EmptyString
       \/ os_getenv public_only_env "REFTAB_SECRET_KEY" EmptyString = EmptyString).
Proof.
  apply (config_check_needs_both_keys no_json public_only_env default_args
           (scripted []) empty_fs 1).
  left. reflexivity.
Defined.

Lemma merged_headers_decide_credentials_witness :
  main (loads_only (json_dumps true (JObj both_keys)) (JObj both_keys))
       (extra_env both_keys) default_args (scripted []) empty_fs 1
  = run "http://h/api"
        (build_headers (loads_only (json_dumps true (JObj both_keys)) (JObj both_keys))
                       (extra_env both_keys))
        default_args (scripted []) empty_fs 1
  /\ exists p,
       main (loads_only (json_dumps true (JObj blank_secret)) (JObj blank_secret))
            (extra_env blank_secret) default_args (scripted []) empty_fs 1 = Some p
       /\ exit_status p = 1 /\ config_failure p.
Proof.
  split.
  - apply (merged_headers_decide_credentials
             (loads_only (json_dumps true (JObj both_keys)) (JObj both_keys))
             (extra_env both_keys) default_args (scripted []) empty_fs 1 both_keys)
      with (vp := JStr "pk2") (vs := JStr "sk2"); try reflexivity; try discriminate.
    repeat constructor; simpl; intuition discriminate.
  - apply (merged_headers_decide_credentials
             (loads_only (json_dumps true (JObj blank_secret)) (JObj blank_secret))
             (extra_env blank_secret) default_args (scripted []) empty_fs 1 blank_secret)
      with (v := JStr EmptyString); try reflexivity; try discriminate.
    + repeat constructor; simpl; intuition discriminate.
    + right. reflexivity.
Defined.

Lemma fetch_failure_discards_everything_witness :
  exists net,
    main no_json good_env
         {| resource := "locations"; query := Some "x"; limit := 1; sleep := 0;
            out := Some "out.csv"; stdout := true |}
         failing_server empty_fs 5
    = Some {| exit_status := 2;
              printed := [json_dumps true (error_payload "HTTP ")];
              uncaught := None; network := net; disk := empty_fs |}
    /\ List.length (requests_of net) = 2%nat.
Proof.
  eexists. split.
  - apply (fetch_failure_discards_everything no_json good_env
             {| resource := "locations"; query := Some "x"; limit := 1; sleep := 0;
                out := Some "out.csv"; stdout := true |}
             failing_server empty_fs 5 _
             (HTTPError (Some (status_response 404)))).
    + discriminate.
    + reflexivity.
    + reflexivity.
    + vm_compute. reflexivity.
  - reflexivity.
Defined.

(** * Further properties *)

(** ** [join_url] *)

Lemma lstrip_slash_shape (s : string) :
  exists m, s = slashes m ++ lstrip_slash s
            /\ first_char (lstrip_slash s) <> Some slash.
Proof.
  induction s as [|c s IH].
  - exists 0%nat. split; [reflexivity | discriminate].
  - cbn [lstrip_slash]. destruct (Ascii.eqb_spec c slash) as [->|N].
    + destruct IH as (m & E & F). exists (S m). split; [|exact F].
      cbn [slashes append]. now rewrite <- E.
    + exists 0%nat. split; [reflexivity|]. cbn [first_char]. congruence.
Qed.

Lemma rstrip_slash_shape (s : string) :
  exists n, s = rstrip_slash s ++ slashes n
            /\ last_char (rstrip_slash s) <> Some slash.
Proof.
  induction s as [|c s IH].
  - exists 0%nat. split; [reflexivity | discriminate].
  - destruct IH as (n & E & L). cbn [rstrip_slash].
    destruct (rstrip_slash s) as [|a t] eqn:R.
    + destruct (Ascii.eqb_spec c slash) as [->|N].
      * exists (S n). split; [|discriminate]. cbn [append slashes]. now rewrite E at 1.
      * exists n. split; [cbn [str1 append]; now rewrite E at 1|].
        unfold str1. cbn [last_char]. congruence.
    + exists n. split; [cbn [append]; now rewrite E at 1 | exact L].
Qed.

(** X1. [join_url] drops every slash that ends [base] and every slash that
    starts [path] and puts one slash between what is left: the part before
    it does not end with a slash and the part after it does not start with
    one. *)
Theorem join_url_shape (base path : string) :
  exists b p n m,
    base = b ++ slashes n /\ path = slashes m ++ p
    /\ last_char b <> Some slash /\ first_char p <> Some slash
    /\ join_url base path = b ++ str1 slash ++ p.
Proof.
  destruct (rstrip_slash_shape base) as (n & Eb & Lb).
  destruct (lstrip_slash_shape path) as (m & Ep & Fp).
  exists (rstrip_slash base), (lstrip_slash path), n, m.
  repeat split; assumption.
Qed.

Lemma rstrip_slashes (n : nat) : rstrip_slash (slashes n) = EmptyString.
Proof.
  induction n as [|n IH]; [reflexivity|].
  cbn [slashes rstrip_slash]. rewrite IH. reflexivity.
Qed.

Lemma rstrip_slash_app (s : string) (n : nat) :
  rstrip_slash (s ++ slashes n) = rstrip_slash s.
Proof.
  induction s as [|c s IH]; [apply rstrip_slashes|].
  cbn [append rstrip_slash]. now rewrite IH.
Qed.

Lemma lstrip_slash_app (m : nat) (s : string) :
  lstrip_slash (slashes m ++ s) = lstrip_slash s.
Proof.
  induction m as [|m IH]; [reflexivity|].
  cbn [slashes append lstrip_slash]. now rewrite Ascii.eqb_refl.
Qed.

(** X2. Slashes added at the end of [base] or at the start of [path] do
    not change the URL. *)
Theorem join_url_ignores_slashes (base path : string) (n m : nat) :
  join_url (base ++ slashes n) (slashes m ++ path) = join_url base path.
Proof.
  unfold join_url. now rewrite rstrip_slash_app, lstrip_slash_app.
Qed.

(** ** More on the pager *)



Section PagerMore.
Variable server : Server.
Variables (session : Session) (base_url path : string) (params : dict)
          (headers : hdict) (limit : Z) (sleep_s : Q).

Local Abbreviation req := (page_request session base_url path params headers limit).
Local Abbreviation loop :=
  (get_paginated_loop server session base_url path params headers limit sleep_s).
Local Abbreviation at_page := (fun i : nat => req (Z.of_nat i * limit)).





End PagerMore.

Lemma sget_sset_other (k k0 : string) (v : json) (d : dict) :
  k <> k0 -> sget k (sset k0 v d) = sget k d.
Proof. apply dict_get_set_other, String.eqb_spec. Qed.

Section PagerInvariants.
Variable server : Server.
Variables (session : Session) (base_url path : string) (params : dict)
          (headers : hdict) (limit : Z) (sleep_s : Q).

Local Abbreviation req := (page_request session base_url path params headers limit).
Local Abbreviation loop :=
  (get_paginated_loop server session base_url path params headers limit sleep_s).

(** The three ways a turn of the loop can go: it ends the run, it retries
    after a sleep, or it appends a batch and moves to the next offset. *)
Lemma loop_step (fuel n : nat) (offset : Z) (out : list json) :
  (exists o, loop (S fuel) n offset out = ([EGet (req offset)], o)
             /\ ((exists e, o = Raised e)
                 \/ exists items, o = Returned (out ++ items)%list))
  \/ (Qle_bool 0 sleep_s = true
      /\ loop (S fuel) n offset out
         = emit [EGet (req offset); ESleep sleep_s] (loop fuel (S n) offset out))
  \/ (exists items,
        loop (S fuel) n offset out
        = emit (EGet (req offset) :: pause sleep_s)
               (loop fuel (S n) (offset + limit) (out ++ items)%list)).
Proof.
  simpl. destruct (server n (req offset)) as [e|resp].
  { left. eexists. split; [reflexivity|]. left. now exists e. }
  destruct (500 <=? status_code resp).
  { unfold time_sleep. destruct (Qle_bool 0 sleep_s) eqn:Hs.
    - right. left. split; reflexivity.
    - left. eexists. split; [reflexivity|]. left. eauto. }
  destruct (raise_for_status resp) as [e|].
  { left. eexists. split; [reflexivity|]. left. now exists e. }
  destruct (resp_json resp) as [msg|body].
  { left. eexists. split; [reflexivity|]. left. eauto. }
  destruct (truthy (batch_of body)); cbn [negb].
  2:{ left. eexists. split; [reflexivity|]. right. exists []. now rewrite app_nil_r. }
  destruct (py_iter (batch_of body)) as [e|items].
  { left. eexists. split; [reflexivity|]. left. now exists e. }
  destruct (py_len (batch_of body)) as [e|len].
  { left. eexists. split; [reflexivity|]. left. now exists e. }
  destruct (len <? limit).
  { left. eexists. split; [reflexivity|]. right. now exists items. }
  right. right. exists items. unfold pause.
  destruct (negb (Qle_bool sleep_s 0)); reflexivity.
Qed.

Lemma loop_requests (fuel : nat) :
  forall n offset out,
    Forall (fun r => exists k : nat, r = req (offset + Z.of_nat k * limit))
           (requests_of (fst (loop fuel n offset out))).
Proof.
  induction fuel as [|fuel IH]; intros n offset out; [constructor|].
  assert (Here : exists k : nat, req offset = req (offset + Z.of_nat k * limit)).
  { exists 0%nat. f_equal. lia. }
  destruct (loop_step fuel n offset out) as [(o & -> & _)|[(_ & ->)|(items & ->)]].
  - repeat constructor. exact Here.
  - unfold emit. cbn [fst app requests_of]. constructor; [exact Here | apply IH].
  - unfold emit. cbn [fst app requests_of]. constructor; [exact Here|].
    rewrite requests_of_app, requests_of_pause. cbn [app].
    eapply Forall_impl; [|apply IH]. intros r (k & ->). exists (S k). f_equal. lia.
Qed.

Lemma page_request_ok (offset : Z) (k : nat) :
  offset = Z.of_nat k * limit ->
  pager_request session base_url path params headers limit (req offset).
Proof.
  intros ->. unfold pager_request, page_request. cbn.
  repeat (split; [reflexivity|]).
  split; [|split].
  - rewrite sget_sset_other by discriminate. apply sget_sset_same.
  - exists k. apply sget_sset_same.
  - intros key H1 H2. now rewrite !sget_sset_other.
Qed.

(** X6. Whatever the server answers, every request of a pagination uses
    the caller's session, URL, headers and a timeout of 60; its parameters
    are the caller's with [limit] set to the page size and [offset] set to a
    multiple of it (a [limit] or [offset] of the caller is overwritten). *)
Theorem pager_requests_are_uniform (fuel : nat) :
  Forall (pager_request session base_url path params headers limit)
         (requests_of
            (fst (get_paginated server session base_url path params headers
                                limit sleep_s fuel))).
Proof.
  unfold get_paginated. eapply Forall_impl; [|apply loop_requests].
  intros r (k & ->). now apply (page_request_ok _ k).
Qed.

(** X7. The pager only appends: from any turn on, what it finally returns
    starts with the records accumulated so far. *)
Theorem pager_only_appends (fuel n : nat) (offset : Z) (out res : list json) :
  snd (loop fuel n offset out) = Returned res ->
  exists more, res = (out ++ more)%list.
Proof.
  revert n offset out res.
  induction fuel as [|fuel IH]; intros n offset out res; [discriminate|].
  destruct (loop_step fuel n offset out) as [(o & -> & Ho)|[(_ & ->)|(items & ->)]];
    unfold emit; cbn [snd].
  - destruct Ho as [(e & ->)|(items & ->)]; [discriminate|].
    intros [= <-]. now exists items.
  - apply IH.
  - intros H. destruct (IH _ _ _ _ H) as (more & ->).
    exists (items ++ more)%list. now rewrite app_assoc.
Qed.


End PagerInvariants.

(** X9. The fetchers ask for the path of the resource ([assets] for the
    resource [assets], [locations] otherwise) under the base URL, send the
    query as the parameter [q] exactly when it is a non-empty text, and use
    the merged headers, in every request. *)
Theorem fetch_requests (s : Session) (base_url : string) (headers : hdict)
    (args : Namespace) (server : Server) (fuel : nat) :
  Forall (fun r =>
            req_url r = join_url base_url (resource_path args)
            /\ sget "q" (req_params r) = query_param (query args)
            /\ req_headers r = headers
            /\ sget "limit" (req_params r) = Some (JNum (limit args)))
         (requests_of (fst (fetch s base_url headers args server fuel))).
Proof.
  set (params := match query args with
                 | Some q => if str_truthy q then sset "q" (JStr q) [] else []
                 | None => []
                 end).
  assert (Q : sget "q" params = query_param (query args)).
  { unfold params, query_param. destruct (query args) as [q|]; [|reflexivity].
    destruct (str_truthy q); reflexivity. }
  assert (A : forall path,
            Forall (fun r =>
                      req_url r = join_url base_url path
                      /\ sget "q" (req_params r) = query_param (query args)
                      /\ req_headers r = headers
                      /\ sget "limit" (req_params r) = Some (JNum (limit args)))
                   (requests_of
                      (fst (get_paginated server s base_url path params headers
                                          (limit args) (sleep args) fuel)))).
  { intros path. unfold get_paginated.
    eapply Forall_impl; [|apply loop_requests]. intros r (k & ->).
    destruct (page_request_ok s base_url path params headers (limit args)
                (0 + Z.of_nat k * limit args) k ltac:(lia))
      as (_ & Hu & Hh & _ & Hl & _ & Hq).
    repeat split; try assumption. now rewrite Hq by discriminate. }
  unfold fetch, resource_path, fetch_assets, fetch_locations. fold params.
  destruct (String.eqb (resource args) "assets"); apply A.
Qed.

(** ** More on the CSV writer *)

Lemma key_set_non_record (rows : list json) :
  forall acc,
    (exists r, In r rows /\ is_dict r = false) ->
    exists r0, In r0 rows /\ is_dict r0 = false
               /\ key_set rows acc = inl (no_keys_error r0).
Proof.
  induction rows as [|r rows IH]; intros acc (b & Hin & Hb); [destruct Hin|].
  destruct (is_dict r) eqn:Hr.
  - destruct r; try discriminate. cbn [key_set as_dict].
    destruct Hin as [<-|Hin]; [discriminate|].
    destruct (IH (add_keys acc fields)) as (r0 & H0 & D0 & E0); [eauto|].
    exists r0. repeat split; [now right | exact D0 | exact E0].
  - exists r. repeat split; [now left | exact Hr|].
    destruct r; try discriminate; reflexivity.
Qed.

(** X10. When some row is not a record, [write_csv] raises the
    [AttributeError] of [keys] before it opens the file: the file system is
    left as it was, an existing file at the path included. *)
Theorem write_csv_rejects_non_records (rows : list json) (path : string) (fs : FS)
    (r : json) :
  In r rows -> is_dict r = false ->
  exists r0, In r0 rows /\ is_dict r0 = false
             /\ write_csv rows path fs = (fs, Some (no_keys_error r0)).
Proof.
  intros Hin Hr.
  destruct (key_set_non_record rows [] (ex_intro _ r (conj Hin Hr)))
    as (r0 & H0 & D0 & E0).
  exists r0. repeat split; [exact H0 | exact D0|].
  unfold write_csv. destruct rows as [|x rows]; [destruct Hin|].
  now rewrite E0.
Qed.





Lemma str_lt_irrefl (a : string) : ~ str_lt a a.
Proof.
  unfold str_lt, String.ltb.
  replace (String.compare a a) with Eq; [discriminate|].
  symmetry. now apply (proj2 (String_as_OT.cmp_eq a a)).
Qed.

Lemma sorted_unique (l1 : list string) :
  forall l2,
    StronglySorted str_lt l1 -> StronglySorted str_lt l2 ->
    (forall k, In k l1 <-> In k l2) -> l1 = l2.
Proof.
  induction l1 as [|a l1 IH]; intros l2 S1 S2 H.
  - destruct l2 as [|b l2]; [reflexivity|]. destruct (proj2 (H b)). now left.
  - destruct l2 as [|b l2]; [destruct (proj1 (H a)); now left|].
    inversion S1 as [|? ? S1' F1]; subst. inversion S2 as [|? ? S2' F2]; subst.
    rewrite Forall_forall in F1, F2.
    assert (a = b) as <-.
    { destruct (proj1 (H a) (or_introl eq_refl)) as [E|Ia]; [now symmetry|].
      destruct (proj2 (H b) (or_introl eq_refl)) as [E|Ib]; [exact E|].
      exfalso. apply (str_lt_irrefl a).
      eapply str_lt_trans; [apply F1, Ib | apply F2, Ia]. }
    f_equal. apply IH; [exact S1' | exact S2'|].
    intros k. split; intros Hk.
    + destruct (proj1 (H k) (or_intror Hk)) as [<-|I]; [|exact I].
      exfalso. exact (str_lt_irrefl _ (F1 _ Hk)).
    + destruct (proj2 (H k) (or_intror Hk)) as [<-|I]; [|exact I].
      exfalso. exact (str_lt_irrefl _ (F2 _ Hk)).
Qed.

(** X11. The header depends on the set of keys only: two lists of records
    in which the same keys occur give the same header, whatever the order of
    the records and of the keys inside them. *)
Theorem csv_header_depends_on_keys_only (recs recs' : list dict) (ks ks' : list string) :
  key_set (map JObj recs) [] = inr ks ->
  key_set (map JObj recs') [] = inr ks' ->
  (forall k, (exists r, In r recs /\ shas k r = true)
             <-> (exists r, In r recs' /\ shas k r = true)) ->
  writeheader (py_sorted ks) = writeheader (py_sorted ks').
Proof.
  rewrite !key_set_records. intros [= <-] [= <-] H. f_equal.
  apply sorted_unique.
  - apply py_sorted_strict, all_keys_nodup. constructor.
  - apply py_sorted_strict, all_keys_nodup. constructor.
  - intros k. rewrite !py_sorted_in, !all_keys_in. cbn [In]. specialize (H k). tauto.
Qed.

(** ** More on the entry point *)

Lemma hget_hset_some (k : string) (k' : pykey) (v x : json) (h : hdict) :
  hget k h = Some x -> exists y, hget k (hset k' v h) = Some y.
Proof.
  intros H. unfold hget, hset.
  destruct (pykey_eqb_spec (KStr k) k') as [<-|N].
  - exists v. apply dict_get_set_same, pykey_eqb_spec.
  - exists x. rewrite dict_get_set_other; [exact H | apply pykey_eqb_spec | exact N].
Qed.

Lemma update_fields_keeps (k : string) (d : dict) :
  forall base x, hget k base = Some x -> exists y, hget k (update_fields base d) = Some y.
Proof.
  unfold update_fields.
  induction d as [|[k' v'] d IH]; intros base x H; cbn [fold_left]; [eauto|].
  destruct (hget_hset_some k (KStr k') v' x base H) as (y & Hy).
  exact (IH _ _ Hy).
Qed.

Lemma update_pairs_keeps (k : string) (items : list json) :
  forall base x, hget k base = Some x -> exists y, hget k (update_pairs base items) = Some y.
Proof.
  induction items as [|item items IH]; intros base x H; cbn [update_pairs]; [eauto|].
  destruct (pair_of item) as [[k' v']|]; [|eauto].
  destruct (hget_hset_some k k' v' x base H) as (y & Hy).
  exact (IH _ _ Hy).
Qed.

Lemma dict_update_keeps (k : string) (other : json) (base : hdict) (x : json) :
  hget k base = Some x -> exists y, hget k (dict_update base other) = Some y.
Proof.
  intros H. unfold dict_update.
  destruct other; cbn [py_iter];
    eauto using update_fields_keeps, update_pairs_keeps.
Qed.

(** X12. Whatever [REFTAB_HEADERS] holds, the merged headers have an
    [X-Public-Key] and an [X-Secret-Key] entry: extra headers can replace
    their values and never remove them. *)
Theorem build_headers_has_key_headers (json_loads : string -> option json)
    (env : Environ) :
  exists vp vs,
    hget "X-Public-Key" (build_headers json_loads env) = Some vp
    /\ hget "X-Secret-Key" (build_headers json_loads env) = Some vs.
Proof.
  assert (B : forall k, k = "X-Public-Key" \/ k = "X-Secret-Key" ->
                exists x, hget k (key_headers env) = Some x).
  { intros k [->| ->]; eexists; reflexivity. }
  assert (A : forall k, k = "X-Public-Key" \/ k = "X-Secret-Key" ->
                exists x, hget k (build_headers json_loads env) = Some x).
  { intros k Hk. destruct (B k Hk) as (x & Hx). unfold build_headers.
    destruct (str_truthy _); [|eauto].
    destruct (json_loads _) as [v|]; [|eauto].
    exact (dict_update_keeps k v _ x Hx). }
  destruct (A "X-Public-Key") as (vp & Hp); [now left|].
  destruct (A "X-Secret-Key") as (vs & Hs); [now right|].
  now exists vp, vs.
Qed.

(** X13. When the extra headers decode to an object, every field of the
    object is a header of the merged mapping, and a key header the object
    does not name keeps the value of its environment variable. *)
Theorem extra_headers_override (json_loads : string -> option json) (env : Environ)
    (d : dict) (k : string) :
  os_getenv env "REFTAB_HEADERS" EmptyString <> EmptyString ->
  json_loads (os_getenv env "REFTAB_HEADERS" EmptyString) = Some (JObj d) ->
  NoDup (map fst d) ->
  hget k (build_headers json_loads env)
  = match sget k d with
    | Some v => Some v
    | None => hget k (key_headers env)
    end.
Proof.
  intros Hne Hj Hd. rewrite (build_headers_object _ _ _ Hne Hj).
  fold (key_headers env).
  destruct (sget k d) as [v|] eqn:E.
  - now apply update_fields_get.
  - apply update_fields_other. intros Hin.
    apply shas_in in Hin. unfold shas, dict_has in Hin.
    fold (sget k d) in Hin. rewrite E in Hin. discriminate.
Qed.

(** X14. The message printed for the [HTTPError] of [raise_for_status]
    never holds the status code: the response of a failed request is falsy,
    so the text after [HTTP] is empty. *)
Theorem http_error_message_has_no_status (json_loads : string -> option json)
    (env : Environ) (args : Namespace) (server : Server) (fs : FS) (fuel : nat)
    (net : list event) (r : Response) :
  os_getenv env "REFTAB_BASE_URL" EmptyString <> EmptyString ->
  opt_truthy (hget "X-Public-Key" (build_headers json_loads env)) = true ->
  opt_truthy (hget "X-Secret-Key" (build_headers json_loads env)) = true ->
  fetch build_session (os_getenv env "REFTAB_BASE_URL" EmptyString)
        (build_headers json_loads env) args server fuel
  = (net, Raised (HTTPError (Some r))) ->
  400 <= status_code r < 600 ->
  main json_loads env args server fs fuel
  = Some {| exit_status := 2;
            printed := [json_dumps true (error_payload "HTTP ")];
            uncaught := None; network := net; disk := fs |}.
Proof.
  intros Hb Hp Hs Hf Hst.
  destruct (main_cases json_loads env args server fs fuel)
    as [(Hb' & _)|[(_ & Hk & _)|(_ & _ & _ & Hm)]];
    [contradiction | destruct Hk; congruence |].
  rewrite Hm. unfold run. rewrite Hf.
  unfold resp_ok, raise_for_status.
  destruct (Z.leb_spec 400 (status_code r)); [|lia].
  destruct (Z.ltb_spec (status_code r) 600); [|lia].
  reflexivity.
Qed.









(** ** The further properties at concrete inputs *)




Lemma pager_only_appends_witness :
  exists more, nums [9; 1; 2; 3] = (nums [9] ++ more)%list.
Proof.
  apply (pager_only_appends (window_server (nums [1; 2; 3])) build_session
           "http://h/api" "assets" [] [] 2 0 3 0 0 (nums [9]) (nums [9; 1; 2; 3])).
  reflexivity.
Defined.


Lemma write_csv_rejects_non_records_witness :
  exists r0,
    In r0 [JObj [("a", JNum 1)]; JNum 3]
    /\ is_dict r0 = false
    /\ write_csv [JObj [("a", JNum 1)]; JNum 3] "notes.txt" used_fs
       = (used_fs, Some (no_keys_error r0)).
Proof.
  apply (write_csv_rejects_non_records [JObj [("a", JNum 1)]; JNum 3]
           "notes.txt" used_fs (JNum 3)).
  - right. left. reflexivity.
  - reflexivity.
Defined.

Lemma csv_header_depends_on_keys_only_witness :
  writeheader (py_sorted ["b"; "a"]) = writeheader (py_sorted ["a"; "b"]).
Proof.
  apply (csv_header_depends_on_keys_only
           [[("b", JNum 2); ("a", JNum 1)]] [[("a", JNull)]; [("b", JNull)]]
           ["b"; "a"] ["a"; "b"]); [reflexivity | reflexivity|].
  intros k. split; intros (r & Hin & Hk); apply shas_in in Hk.
  - destruct Hin as [<-|[]]. destruct Hk as [<-|[<-|[]]].
    + exists [("b", JNull)]. split; [right; now left | reflexivity].
    + exists [("a", JNull)]. split; [now left | reflexivity].
  - exists [("b", JNum 2); ("a", JNum 1)]. split; [now left|].
    destruct Hin as [<-|[<-|[]]]; destruct Hk as [<-|[]]; reflexivity.
Defined.

Lemma extra_headers_override_witness :
  hget "X-Public-Key"
       (build_headers (loads_only (json_dumps true (JObj blank_secret)) (JObj blank_secret))
                      (extra_env blank_secret))
  = hget "X-Public-Key" (key_headers (extra_env blank_secret))
  /\ hget "X-Secret-Key"
          (build_headers (loads_only (json_dumps true (JObj blank_secret)) (JObj blank_secret))
                         (extra_env blank_secret))
     = Some (JStr EmptyString).
Proof.
  assert (N : NoDup (map fst blank_secret)).
  { repeat constructor; simpl; intuition discriminate. }
  split.
  - apply (extra_headers_override
             (loads_only (json_dumps true (JObj blank_secret)) (JObj blank_secret))
             (extra_env blank_secret) blank_secret "X-Public-Key");
      [discriminate | reflexivity | exact N].
  - apply (extra_headers_override
             (loads_only (json_dumps true (JObj blank_secret)) (JObj blank_secret))
             (extra_env blank_secret) blank_secret "X-Secret-Key");
      [discriminate | reflexivity | exact N].
Defined.

Lemma http_error_message_has_no_status_witness :
  exists net,
    main no_json good_env csv_args failing_server empty_fs 5
    = Some {| exit_status := 2;
              printed := [json_dumps true (error_payload "HTTP ")];
              uncaught := None; network := net; disk := empty_fs |}.
Proof.
  eexists.
  apply (http_error_message_has_no_status no_json good_env csv_args failing_server
           empty_fs 5 _ (status_response 404)).
  - discriminate.
  - reflexivity.
  - reflexivity.
  - vm_compute. reflexivity.
  - simpl. lia.
Defined.


